(** * go-travis: the jobs service (jobs.go)

    A shallow embedding of [JobFindOptions.IsValid] and of the five
    operations of [JobsService] (Get, ListFromBuild, Find, Cancel,
    Restart), with the properties of their request/response mapping,
    and of the two integration tests of the requests service.

    Conventions of the embedding:
    - Go's [uint] is [N]; no arithmetic is done on identifiers, they
      are only rendered in decimal ([fmt.Sprintf "%d"] is [pretty]).
    - a slice [[]T] is [option (list T)]: [None] is the nil slice and
      [Some []] the empty, non-nil one, which [reflect.DeepEqual] tells
      apart.
    - a pointer result ([*Job], [*http.Response], [*http.Request]) and
      an [error] are [option]s, [None] being nil.
    - a Go function returning [(x, err)] returns a pair here.
    - the collaborators [urlWithOptions], [Client.NewRequest] and
      [Client.Do] live outside jobs.go: they are parameters, and every
      call an operation makes to them is recorded, with what it
      returned, in the list of events of the run. *)

From stdpp Require Import base decidable option list strings pretty gmap.
From Stdlib Require Import ZArith Lia.

Open Scope string_scope.

(** ** Go values *)

Definition uint := N.
Bind Scope N_scope with uint.

Definition slice (A : Type) := option (list A).

(** An [error] value; [Errorf] is [fmt.Errorf] on a format without
    verbs, [Error] the method of the [error] interface. *)
Record error := Errorf { Error : string }.

#[global] Instance error_eq_dec : EqDecision error.
Proof. solve_decision. Defined.

(** The zero value every Go type has. *)
Class ZeroValue (A : Type) := zero : A.
#[global] Hint Mode ZeroValue ! : typeclass_instances.

#[global] Instance uint_zero : ZeroValue uint := 0%N.
#[global] Instance string_zero : ZeroValue string := "".
#[global] Instance slice_zero {A} : ZeroValue (slice A) := None.

(** The fragment of [net/http]'s [Response] that callers of this
    package inspect: the status line and its code (the body is read
    and closed by [Client.Do]). *)
Record http_Response := {
  Status : string;
  StatusCode : Z
}.


(** What jobs.go uses and does not declare: the types [ListOptions],
    [Job] and [getBuildResponse] of the package (with the one field of
    each that jobs.go or its callers read), and the imported
    [http.Request], [context.Context] and the values that may be handed
    over as a request body. On the struct types [reflect.DeepEqual] is
    structural equality. *)
Class Package := {
  ListOptions : Type;
  ListOptions_eq_dec :: EqDecision ListOptions;
  ListOptions_zero :: ZeroValue ListOptions;
  Job : Type;
  Id : Job → uint;
  Job_zero :: ZeroValue Job;
  getBuildResponse : Type;
  getBuildResponse_Jobs : getBuildResponse → slice Job;
  getBuildResponse_zero :: ZeroValue getBuildResponse;
  http_Request : Type;
  context_Context : Type;
  Payload : Type
}.

(** ** JobFindOptions and its validation *)

Section Options.
Context `{pkg : Package}.

Record JobFindOptions := {
  embedded_ListOptions : ListOptions;
  Ids : slice uint;
  State : string;
  Queue : string
}.

(** What [structs.New(jfo).Fields()] yields: one [Field] per field of
    the struct, in declaration order, the embedded struct being one
    field. [Value] is the [reflect.Value] a field holds, for the field
    types of [JobFindOptions]. *)
Inductive Value :=
| ValListOptions (v : ListOptions)
| ValUintSlice (v : slice uint)
| ValString (v : string).

Record Field := { Name : string; value : Value }.

#[global] Instance Value_eq_dec : EqDecision Value.
Proof. solve_decision. Defined.

Definition Fields (jfo : JobFindOptions) : list Field :=
  [ {| Name := "ListOptions"; value := ValListOptions (embedded_ListOptions jfo) |};
    {| Name := "Ids"; value := ValUintSlice (Ids jfo) |};
    {| Name := "State"; value := ValString (State jfo) |};
    {| Name := "Queue"; value := ValString (Queue jfo) |} ].

(** [reflect.Zero(f.value.Type())] *)
Definition Zero (v : Value) : Value :=
  match v with
  | ValListOptions _ => ValListOptions zero
  | ValUintSlice _ => ValUintSlice zero
  | ValString _ => ValString zero
  end.

Definition DeepEqual (a b : Value) : bool := bool_decide (a = b).

(** [Field.IsZero] of the structs package. *)
Definition IsZero (f : Field) : bool := DeepEqual (value f) (Zero (value f)).

(** The body of the loop of [IsValid]; [nonZeroValues] is a Go [int]. *)
Definition count_step (nonZeroValues : Z) (field : Field) : Z :=
  if negb (IsZero field) then (nonZeroValues + 1)%Z else nonZeroValues.

Definition IsValid (jfo : JobFindOptions) : bool :=
  let f := Fields jfo in
  let nonZeroValues := fold_left count_step f 0%Z in
  (nonZeroValues =? 0)%Z || (nonZeroValues =? 1)%Z.

(** The count in the words of the specification: how many of the
    fields of the record are set to a value that is not the default. *)
Definition set_to_nonzero {A} `{!EqDecision A} `{!ZeroValue A} (x : A) : nat :=
  if decide (x = zero) then 0 else 1.

Definition filters_set (jfo : JobFindOptions) : nat :=
  set_to_nonzero (Ids jfo) + set_to_nonzero (State jfo) + set_to_nonzero (Queue jfo).

Definition nonzero_fields (jfo : JobFindOptions) : nat :=
  set_to_nonzero (embedded_ListOptions jfo) + filters_set jfo.

(** What one field adds to the count. *)
Definition counts (f : Field) : nat := if IsZero f then 0 else 1.

End Options.

(** ** The envelopes and the transport *)

Section Service.
Context `{pkg : Package}.

(** [findJobsResponse] is the envelope of a list ([json:"jobs"]),
    [getJobResponse] the envelope of one record ([json:"job"]). *)
Record findJobsResponse := { findJobsResponse_Jobs : slice Job }.

Record getJobResponse := { getJobResponse_Job : Job }.

#[global] Instance findJobsResponse_zero : ZeroValue findJobsResponse :=
  {| findJobsResponse_Jobs := zero |}.

#[global] Instance getJobResponse_zero : ZeroValue getJobResponse :=
  {| getJobResponse_Job := zero |}.

(** The [opt interface{}] argument of [urlWithOptions]: the untyped nil
    that Get, ListFromBuild, Cancel and Restart pass, or the
    [*JobFindOptions] (itself nil or not) that Find passes. *)
Inductive options :=
| opt_nil
| opt_JobFindOptions (p : option JobFindOptions).

(** The [v interface{}] argument of [Client.Do]: nil, or a pointer to
    the envelope to decode into. [pointee t] is what the pointer points
    to, [filled] such a content together with its type. *)
Inductive target :=
| into_nil
| into_getJobResponse
| into_getBuildResponse
| into_findJobsResponse.

Definition pointee (t : target) : Type :=
  match t with
  | into_nil => unit
  | into_getJobResponse => getJobResponse
  | into_getBuildResponse => getBuildResponse
  | into_findJobsResponse => findJobsResponse
  end.

Inductive filled :=
| filled_nil
| filled_getJobResponse (v : getJobResponse)
| filled_getBuildResponse (v : getBuildResponse)
| filled_findJobsResponse (v : findJobsResponse).

Definition filled_of (t : target) : pointee t → filled :=
  match t with
  | into_nil => λ _, filled_nil
  | into_getJobResponse => filled_getJobResponse
  | into_getBuildResponse => filled_getBuildResponse
  | into_findJobsResponse => filled_findJobsResponse
  end.

(** The collaborators. [Wire] is the state of the connection and of
    the remote end; only [Do], the round trip, reads and changes it.
    [Do] gets the content of [v] and returns it as the call left it. *)
Class Transport := {
  Wire : Type;
  urlWithOptions : string → options → string * option error;
  NewRequest : string → string → option Payload → option (gmap string string)
               → option http_Request * option error;
  Do : context_Context → option http_Request → ∀ t : target, pointee t → Wire
       → (pointee t * option http_Response * option error) * Wire
}.

Context `{tr : Transport}.

(** One call to a collaborator, with what it returned. *)
Inductive event :=
| ev_urlWithOptions (s : string) (opt : options) (u : string) (err : option error)
| ev_NewRequest (method urlStr : string) (body : option Payload)
    (headers : option (gmap string string))
    (req : option http_Request) (err : option error)
| ev_Do (ctx : context_Context) (req : option http_Request) (v : filled)
    (resp : option http_Response) (err : option error).

(** The error a call reported. *)
Definition reported (ev : event) : option error :=
  match ev with
  | ev_urlWithOptions _ _ _ err => err
  | ev_NewRequest _ _ _ _ _ err => err
  | ev_Do _ _ _ _ err => err
  end.

Definition is_round_trip (ev : event) : bool :=
  match ev with
  | ev_Do _ _ _ _ _ => true
  | _ => false
  end.

(** The round trips among the events of a run. *)
Definition round_trips (evs : list event) : list event :=
  List.filter is_round_trip evs.

(** A computation of the service: from the state of the wire to a
    result, the events of the run and the state of the wire after. *)
Definition M (A : Type) : Type := Wire → A * list event * Wire.

#[global] Instance M_ret : MRet M := λ A a w, (a, [], w).

#[global] Instance M_bind : MBind M := λ A B k m w,
  let '(a, evs1, w1) := m w in
  let '(b, evs2, w2) := k a w1 in
  (b, (evs1 ++ evs2)%list, w2).

(** The parts of a run from the wire [w]. *)
Definition result_of {A} (m : M A) (w : Wire) : A := (m w).1.1.

Definition events_of {A} (m : M A) (w : Wire) : list event := (m w).1.2.


Definition call_urlWithOptions (s : string) (opt : options) : M (string * option error) :=
  λ w, let r := urlWithOptions s opt in (r, [ev_urlWithOptions s opt r.1 r.2], w).

Definition call_NewRequest (method urlStr : string) (body : option Payload)
    (headers : option (gmap string string)) : M (option http_Request * option error) :=
  λ w, let r := NewRequest method urlStr body headers in
       (r, [ev_NewRequest method urlStr body headers r.1 r.2], w).

Definition call_Do (ctx : context_Context) (req : option http_Request)
    (t : target) (v : pointee t) : M (pointee t * option http_Response * option error) :=
  λ w, let '((v', resp, err), w') := Do ctx req t v w in
       ((v', resp, err), [ev_Do ctx req (filled_of t v') resp err], w').

(** ** The operations of JobsService *)

Definition Get (ctx : context_Context) (id : uint)
    : M (option Job * option http_Response * option error) :=
  '(u, err) ← call_urlWithOptions ("/jobs/" +:+ pretty id) opt_nil;
  if err is Some _ then mret (None, None, err) else
  '(req, err) ← call_NewRequest "GET" u None None;
  if err is Some _ then mret (None, None, err) else
  let jobResp : getJobResponse := zero in
  '(jobResp, resp, err) ← call_Do ctx req into_getJobResponse jobResp;
  if err is Some _ then mret (None, resp, err) else
  mret (Some (getJobResponse_Job jobResp), resp, err).

Definition ListFromBuild (ctx : context_Context) (buildId : uint)
    : M (slice Job * option http_Response * option error) :=
  '(u, err) ← call_urlWithOptions ("/builds/" +:+ pretty buildId) opt_nil;
  if err is Some _ then mret (None, None, err) else
  '(req, err) ← call_NewRequest "GET" u None None;
  if err is Some _ then mret (None, None, err) else
  let buildResp : getBuildResponse := zero in
  '(buildResp, resp, err) ← call_Do ctx req into_getBuildResponse buildResp;
  if err is Some _ then mret (None, resp, err) else
  mret (getBuildResponse_Jobs buildResp, resp, err).

Definition Find (ctx : context_Context) (opt : option JobFindOptions)
    : M (slice Job * option http_Response * option error) :=
  if (if opt is Some jfo then negb (IsValid jfo) else false) then
    mret (None, None,
          Some (Errorf "more than one value set in provided JobFindOptions instance"))
  else
  '(u, err) ← call_urlWithOptions "/jobs" (opt_JobFindOptions opt);
  if err is Some _ then mret (None, None, err) else
  '(req, err) ← call_NewRequest "GET" u None None;
  if err is Some _ then mret (None, None, err) else
  let jobsResp : findJobsResponse := zero in
  '(jobsResp, resp, err) ← call_Do ctx req into_findJobsResponse jobsResp;
  if err is Some _ then mret (None, resp, err) else
  mret (findJobsResponse_Jobs jobsResp, resp, err).

Definition Cancel (ctx : context_Context) (id : uint)
    : M (option http_Response * option error) :=
  '(u, err) ← call_urlWithOptions ("/jobs/" +:+ pretty id +:+ "/cancel") opt_nil;
  if err is Some _ then mret (None, err) else
  '(req, err) ← call_NewRequest "POST" u None None;
  if err is Some _ then mret (None, err) else
  '(_, resp, err) ← call_Do ctx req into_nil ();
  if err is Some _ then mret (resp, err) else
  mret (resp, err).

Definition Restart (ctx : context_Context) (id : uint)
    : M (option http_Response * option error) :=
  '(u, err) ← call_urlWithOptions ("/jobs/" +:+ pretty id +:+ "/restart") opt_nil;
  if err is Some _ then mret (None, err) else
  '(req, err) ← call_NewRequest "POST" u None None;
  if err is Some _ then mret (None, err) else
  '(_, resp, err) ← call_Do ctx req into_nil ();
  if err is Some _ then mret (resp, err) else
  mret (resp, err).

(** ** The exposed operations, taken together *)

Inductive operation :=
| op_Get (id : uint)
| op_ListFromBuild (buildId : uint)
| op_Find (opt : option JobFindOptions)
| op_Cancel (id : uint)
| op_Restart (id : uint).

(** The response and the error an operation hands to its caller. *)
Definition perform (ctx : context_Context) (op : operation)
    : M (option http_Response * option error) :=
  match op with
  | op_Get id => '(_, resp, err) ← Get ctx id; mret (resp, err)
  | op_ListFromBuild buildId => '(_, resp, err) ← ListFromBuild ctx buildId; mret (resp, err)
  | op_Find opt => '(_, resp, err) ← Find ctx opt; mret (resp, err)
  | op_Cancel id => Cancel ctx id
  | op_Restart id => Restart ctx id
  end.

(** The operation is a Find whose options do not pass [IsValid]. *)
Definition validation_fails (op : operation) : Prop :=
  match op with
  | op_Find (Some jfo) => IsValid jfo = false
  | _ => False
  end.

End Service.

(** ** The exchange, in the words of the specification

    Section 2 of the specification gives the control flow every
    operation follows after the optional validation: URL construction,
    request construction without body, one round trip; a step that
    reports an error ends the exchange. [exchange] is that flow, the
    operations above are compared with it. *)

Section Exchange.
Context `{tr : Transport}.

Definition pointee_zero (t : target) : pointee t :=
  match t with
  | into_nil => ()
  | into_getJobResponse => zero
  | into_getBuildResponse => zero
  | into_findJobsResponse => zero
  end.

Definition exchange (ctx : context_Context) (method path : string) (opt : options)
    (t : target) : M (pointee t * option http_Response * option error) :=
  λ w,
    match urlWithOptions path opt with
    | (u, Some e) =>
        ((pointee_zero t, None, Some e), [ev_urlWithOptions path opt u (Some e)], w)
    | (u, None) =>
        match NewRequest method u None None with
        | (req, Some e) =>
            ((pointee_zero t, None, Some e),
             [ev_urlWithOptions path opt u None;
              ev_NewRequest method u None None req (Some e)], w)
        | (req, None) =>
            let '((v, resp, err), w') := Do ctx req t (pointee_zero t) w in
            ((v, resp, err),
             [ev_urlWithOptions path opt u None;
              ev_NewRequest method u None None req None;
              ev_Do ctx req (filled_of t v) resp err], w')
        end
    end.

(** The first event is the construction of the URL for [path]. *)
Definition builds_url (path : string) (opt : options) (evs : list event) : Prop :=
  ∃ u e rest, evs = ev_urlWithOptions path opt u e :: rest.

(** Neither the URL nor the request construction reported an error. *)
Definition constructed (evs : list event) : Prop :=
  ∀ ev, ev ∈ evs → is_round_trip ev = false → reported ev = None.

(** The events are those of one complete exchange: the URL built for
    [path], the request built for [method] and that URL with neither
    body nor headers, and one round trip of that request, which left
    [v] behind and returned [resp] and [err]. *)
Definition one_exchange (ctx : context_Context) (method path : string) (opt : options)
    (evs : list event) (v : filled) (resp : option http_Response)
    (err : option error) : Prop :=
  ∃ u req,
    evs = [ev_urlWithOptions path opt u None;
           ev_NewRequest method u None None req None;
           ev_Do ctx req v resp err].

(** The HTTP surface in the words of the specification (section 6):
    the method, the path and the envelope of each operation. *)
Definition method_of (op : operation) : string :=
  match op with
  | op_Get _ | op_ListFromBuild _ | op_Find _ => "GET"
  | op_Cancel _ | op_Restart _ => "POST"
  end.

Definition path_of (op : operation) : string :=
  match op with
  | op_Get id => "/jobs/" +:+ pretty id
  | op_ListFromBuild buildId => "/builds/" +:+ pretty buildId
  | op_Find _ => "/jobs"
  | op_Cancel id => "/jobs/" +:+ pretty id +:+ "/cancel"
  | op_Restart id => "/jobs/" +:+ pretty id +:+ "/restart"
  end.

Definition options_of (op : operation) : options :=
  match op with
  | op_Find opt => opt_JobFindOptions opt
  | _ => opt_nil
  end.

Definition target_of (op : operation) : target :=
  match op with
  | op_Get _ => into_getJobResponse
  | op_ListFromBuild _ => into_getBuildResponse
  | op_Find _ => into_findJobsResponse
  | op_Cancel _ | op_Restart _ => into_nil
  end.

(** The options of the operation, if any, pass [IsValid]. *)
Definition passes_validation (op : operation) : bool :=
  match op with
  | op_Find (Some jfo) => IsValid jfo
  | _ => true
  end.

End Exchange.

(** ** A scripted transport

    A remote end that answers from a script, one reply per round trip,
    as a test server does; it serves to run the operations on concrete
    inputs. *)

Record page := { AfterNumber : uint }.

Record job := { job_Id : uint; job_State : string }.

Record build := { build_Id : uint; build_Jobs : slice job }.

Record request := { Method : string; URL : string }.

#[global] Instance page_eq_dec : EqDecision page.
Proof. solve_decision. Defined.

#[global] Instance scripted_package : Package := {|
  ListOptions := page;
  ListOptions_zero := {| AfterNumber := 0 |};
  Job := job;
  Id := job_Id;
  Job_zero := {| job_Id := 0; job_State := "" |};
  getBuildResponse := build;
  getBuildResponse_Jobs := build_Jobs;
  getBuildResponse_zero := {| build_Id := 0; build_Jobs := None |};
  http_Request := request;
  context_Context := unit;
  Payload := string
|}.

Record reply := {
  reply_decoded : filled;
  reply_resp : option http_Response;
  reply_err : option error
}.

(** Decoding [f] into the pointee of [v]: a content of another type
    leaves it as it was. *)
Definition fill (t : target) (f : filled) : pointee t → pointee t :=
  match t with
  | into_nil => λ v, v
  | into_getJobResponse => λ v, if f is filled_getJobResponse r then r else v
  | into_getBuildResponse => λ v, if f is filled_getBuildResponse r then r else v
  | into_findJobsResponse => λ v, if f is filled_findJobsResponse r then r else v
  end.

Definition scripted_Do (ctx : unit) (req : option request) (t : target)
    (v : pointee t) (script : list reply)
    : (pointee t * option http_Response * option error) * list reply :=
  match script with
  | [] => ((v, None, Some (Errorf "connection refused")), [])
  | r :: script' => ((fill t (reply_decoded r) v, reply_resp r, reply_err r), script')
  end.

#[global] Instance scripted : Transport := {|
  Wire := list reply;
  urlWithOptions := λ s _, (s, None);
  NewRequest := λ method urlStr _ _, (Some {| Method := method; URL := urlStr |}, None);
  Do := scripted_Do
|}.

Definition ok_200 : http_Response :=
  {| Status := "200 OK"; StatusCode := 200 |}.

Definition accepted_202 : http_Response :=
  {| Status := "202 Accepted"; StatusCode := 202 |}.

Definition not_found_404 : http_Response :=
  {| Status := "404 Not Found"; StatusCode := 404 |}.

Definition job_2 : job := {| job_Id := 2; job_State := "passed" |}.

(** 200 with the envelope of job 2, whatever was asked. *)
Definition answers_job_2 : reply :=
  {| reply_decoded := filled_getJobResponse {| getJobResponse_Job := job_2 |};
     reply_resp := Some ok_200;
     reply_err := None |}.

(** 200 with the build 9, whose jobs come in the order 3, 1, 2. *)
Definition answers_build_9 : reply :=
  {| reply_decoded :=
       filled_getBuildResponse
         {| build_Id := 9;
            build_Jobs := Some [ {| job_Id := 3; job_State := "failed" |};
                                 {| job_Id := 1; job_State := "passed" |};
                                 job_2 ] |};
     reply_resp := Some ok_200;
     reply_err := None |}.

(** 404, no envelope, and no error from the round trip. *)
Definition answers_404 : reply :=
  {| reply_decoded := filled_nil;
     reply_resp := Some not_found_404;
     reply_err := None |}.

(** 202 to an action. *)
Definition answers_202 : reply :=
  {| reply_decoded := filled_nil;
     reply_resp := Some accepted_202;
     reply_err := None |}.

(** 200 with a body that is not the envelope: the decoding fails. *)
Definition answers_garbled : reply :=
  {| reply_decoded := filled_nil;
     reply_resp := Some ok_200;
     reply_err := Some (Errorf "invalid character '<' looking for beginning of value") |}.

(** 404 that the round trip reports as an error. *)
Definition answers_404_as_error : reply :=
  {| reply_decoded := filled_nil;
     reply_resp := Some not_found_404;
     reply_err := Some (Errorf "GET /builds/9: 404") |}.

Definition passed_and_linux : JobFindOptions :=
  {| embedded_ListOptions := zero; Ids := None; State := "passed"; Queue := "builds.linux" |}.

Definition passed_after_100 : JobFindOptions :=
  {| embedded_ListOptions := {| AfterNumber := 100 |}; Ids := None; State := "passed"; Queue := "" |}.

Definition only_passed : JobFindOptions :=
  {| embedded_ListOptions := zero; Ids := None; State := "passed"; Queue := "" |}.

(** ** Notions for the further properties *)

Section Endpoints.
Context `{pkg : Package}.

(** Two operations address the same endpoint: they are the same
    operation on the same identifier. The options of Find are no part
    of the path it asks for. *)
Definition same_endpoint (op1 op2 : operation) : Prop :=
  match op1, op2 with
  | op_Get a, op_Get b => a = b
  | op_ListFromBuild a, op_ListFromBuild b => a = b
  | op_Find _, op_Find _ => True
  | op_Cancel a, op_Cancel b => a = b
  | op_Restart a, op_Restart b => a = b
  | _, _ => False
  end.

(** Every field of [jfo'] is the field of [jfo] or is reset to its
    zero value. *)
Definition cleared (jfo' jfo : JobFindOptions) : Prop :=
  (embedded_ListOptions jfo' = embedded_ListOptions jfo ∨ embedded_ListOptions jfo' = zero)
  ∧ (Ids jfo' = Ids jfo ∨ Ids jfo' = zero)
  ∧ (State jfo' = State jfo ∨ State jfo' = zero)
  ∧ (Queue jfo' = Queue jfo ∨ Queue jfo' = zero).

End Endpoints.

Section Traces.
Context `{tr : Transport}.

(** The path the first call of a run asked a URL for. *)
Definition path_built (evs : list event) : option string :=
  match evs with
  | ev_urlWithOptions path _ _ _ :: _ => Some path
  | _ => None
  end.

End Traces.

Definition is_digit (c : Ascii.ascii) : bool :=
  (48 <=? Ascii.nat_of_ascii c)%nat && (Ascii.nat_of_ascii c <=? 57)%nat.

Fixpoint all_digits (s : string) : bool :=
  match s with
  | EmptyString => true
  | String c s' => is_digit c && all_digits s'
  end.

Definition jobs_3_1 : list job :=
  [ {| job_Id := 3; job_State := "passed" |}; {| job_Id := 1; job_State := "passed" |} ].

(** 200 with the envelope of the jobs 3 and 1, in that order. *)
Definition answers_jobs_3_1 : reply :=
  {| reply_decoded := filled_findJobsResponse {| findJobsResponse_Jobs := Some jobs_3_1 |};
     reply_resp := Some ok_200;
     reply_err := None |}.

Definition empty_Ids_and_passed : JobFindOptions :=
  {| embedded_ListOptions := zero; Ids := Some []; State := "passed"; Queue := "" |}.

(** * The integration tests of the requests service
    (request_integration_test.go)

    The two tests create a request and look it up. The requests
    service, its [Request] record and the repository the tests run
    against are declared outside the test file: they are parameters,
    each call of the service standing for the answer the service gave
    to it (a test calls each function once). A test ends with a
    verdict: it passes, it stops at a [t.Fatalf] with its message, or
    it follows a nil pointer. [t.Parallel] only schedules the test;
    whatever runs beside it shows in the answers. *)

Record CreateRequestsOption := { Message : string; Branch : string }.

Inductive verdict :=
| passed
| fatal (msg : string)
| nil_dereference.

(** A call of the requests service. *)
Inductive requests_call :=
| call_CreateByRepoId (repoId : uint) (opt : option CreateRequestsOption)
| call_CreateByRepoSlug (slug : string) (opt : option CreateRequestsOption)
| call_FindByRepoId (repoId : uint) (id : uint)
| call_FindByRepoSlug (slug : string) (id : uint).

Class RequestsService := {
  Request : Type;
  Request_Id : Request → uint;
  integrationRepoId : uint;
  integrationRepo : string;
  CreateByRepoId : uint → option CreateRequestsOption
                   → option Request * option http_Response * option error;
  CreateByRepoSlug : string → option CreateRequestsOption
                     → option Request * option http_Response * option error;
  FindByRepoId : uint → uint → option Request * option http_Response * option error;
  FindByRepoSlug : string → uint → option Request * option http_Response * option error
}.

Definition StatusAccepted : Z := 202.

Definition StatusOK : Z := 200.

Section RequestTests.
Context `{rs : RequestsService}.

Definition TestRequestService_CreateAndFindById : verdict * list requests_call :=
  let opt := Some {| Message := "test"; Branch := "master" |} in
  let '(createdRequest, res, err) := CreateByRepoId integrationRepoId opt in
  let calls := [call_CreateByRepoId integrationRepoId opt] in
  if err is Some e then (fatal ("unexpected error occured: " +:+ Error e), calls) else
  match res with
  | None => (nil_dereference, calls)
  | Some res =>
  if negb (StatusCode res =? StatusAccepted)%Z
  then (fatal ("invalid http status: " +:+ Status res), calls) else
  match createdRequest with
  | None => (nil_dereference, calls)
  | Some createdRequest =>
  let '(request, res, err) := FindByRepoId integrationRepoId (Request_Id createdRequest) in
  let calls := (calls ++ [call_FindByRepoId integrationRepoId (Request_Id createdRequest)])%list in
  if err is Some e then (fatal ("unexpected error occured: " +:+ Error e), calls) else
  match res with
  | None => (nil_dereference, calls)
  | Some res =>
  if negb (StatusCode res =? StatusOK)%Z
  then (fatal ("#invalid http status: " +:+ Status res), calls) else
  match request with
  | None => (nil_dereference, calls)
  | Some request =>
  if negb (Request_Id request =? Request_Id createdRequest)%N
  then (fatal ("unexpected request is retrieved: got request id: "
               +:+ pretty (Request_Id request)
               +:+ ", want request id: " +:+ pretty (Request_Id createdRequest)),
        calls)
  else (passed, calls)
  end end end end.

Definition TestRequestService_CreateAndFindBySlug : verdict * list requests_call :=
  let opt := Some {| Message := "test"; Branch := "master" |} in
  let '(createdRequest, res, err) := CreateByRepoSlug integrationRepo opt in
  let calls := [call_CreateByRepoSlug integrationRepo opt] in
  if err is Some e then (fatal ("unexpected error occured: " +:+ Error e), calls) else
  match res with
  | None => (nil_dereference, calls)
  | Some res =>
  if negb (StatusCode res =? StatusAccepted)%Z
  then (fatal ("invalid http status: " +:+ Status res), calls) else
  match createdRequest with
  | None => (nil_dereference, calls)
  | Some createdRequest =>
  let '(request, res, err) := FindByRepoSlug integrationRepo (Request_Id createdRequest) in
  let calls := (calls ++ [call_FindByRepoSlug integrationRepo (Request_Id createdRequest)])%list in
  if err is Some e then (fatal ("unexpected error occured: " +:+ Error e), calls) else
  match res with
  | None => (nil_dereference, calls)
  | Some res =>
  if negb (StatusCode res =? StatusOK)%Z
  then (fatal ("#invalid http status: " +:+ Status res), calls) else
  match request with
  | None => (nil_dereference, calls)
  | Some request =>
  if negb (Request_Id request =? Request_Id createdRequest)%N
  then (fatal ("unexpected request is retrieved: got request id: "
               +:+ pretty (Request_Id request)
               +:+ ", want request id: " +:+ pretty (Request_Id createdRequest)),
        calls)
  else (passed, calls)
  end end end end.

(** The creation was accepted: a request and a 202 came back with a
    nil error. *)
Definition accepted (a : option Request * option http_Response * option error)
    (created : Request) : Prop :=
  ∃ res, a = (Some created, Some res, None) ∧ StatusCode res = StatusAccepted.

(** The lookup found the request [created]: a request of the same
    [Id] and a 200 came back with a nil error. *)
Definition found (a : option Request * option http_Response * option error)
    (created : Request) : Prop :=
  ∃ request res, a = (Some request, Some res, None)
    ∧ StatusCode res = StatusOK
    ∧ Request_Id request = Request_Id created.

(** The answer comes with a response and a record unless it comes
    with an error. *)
Definition in_full (a : option Request * option http_Response * option error) : Prop :=
  a.2 = None → is_Some a.1.1 ∧ is_Some a.1.2.

(** The options both tests create their request with. *)
Definition test_options : option CreateRequestsOption :=
  Some {| Message := "test"; Branch := "master" |}.

End RequestTests.

(** A requests service as the tests expect it: it accepts every
    creation as request 41 and finds what it is asked for; and one
    that answers every creation with neither a response nor an error. *)
Record request_record := { request_Id : uint }.

Definition obliging_service : RequestsService := {|
  Request := request_record;
  Request_Id := request_Id;
  integrationRepoId := 8;
  integrationRepo := "octo/demo";
  CreateByRepoId := λ _ _, (Some {| request_Id := 41 |}, Some accepted_202, None);
  CreateByRepoSlug := λ _ _, (Some {| request_Id := 41 |}, Some accepted_202, None);
  FindByRepoId := λ _ id, (Some {| request_Id := id |}, Some ok_200, None);
  FindByRepoSlug := λ _ id, (Some {| request_Id := id |}, Some ok_200, None)
|}.

Definition silent_service : RequestsService := {|
  Request := request_record;
  Request_Id := request_Id;
  integrationRepoId := 8;
  integrationRepo := "octo/demo";
  CreateByRepoId := λ _ _, (None, None, None);
  CreateByRepoSlug := λ _ _, (None, None, None);
  FindByRepoId := λ _ id, (Some {| request_Id := id |}, Some ok_200, None);
  FindByRepoSlug := λ _ id, (Some {| request_Id := id |}, Some ok_200, None)
|}.

(** * Properties *)

(** ** Validation *)

Section OptionsTheory.
Context `{pkg : Package}.

(** The loop counts the fields that are not zero. *)
Lemma count_loop (fs : list Field) (n : Z) :
  fold_left count_step fs n
  = (n + Z.of_nat (length (filter (λ f, IsZero f = false) fs)))%Z.
Proof.
  revert n. induction fs as [|f fs IH]; intros n; simpl.
  - lia.
  - rewrite IH, filter_cons. unfold count_step.
    destruct (decide (IsZero f = false)) as [E|E].
    + rewrite E. simpl. lia.
    + apply not_false_is_true in E. rewrite E. simpl. lia.
Qed.

Lemma length_filter_nonzero_cons (f : Field) (fs : list Field) :
  length (filter (λ f, IsZero f = false) (f :: fs))
  = counts f + length (filter (λ f, IsZero f = false) fs).
Proof.
  rewrite filter_cons. unfold counts.
  destruct (decide (IsZero f = false)) as [E|E].
  - rewrite E. reflexivity.
  - apply not_false_is_true in E. rewrite E. reflexivity.
Qed.

Lemma counts_ListOptions name (x : ListOptions) :
  counts {| Name := name; value := ValListOptions x |} = set_to_nonzero x.
Proof.
  unfold counts, IsZero, DeepEqual, set_to_nonzero; simpl.
  destruct (decide (x = zero)) as [->|Hx].
  - rewrite bool_decide_eq_true_2; reflexivity.
  - rewrite bool_decide_eq_false_2; [reflexivity | congruence].
Qed.

Lemma counts_slice name (x : slice uint) :
  counts {| Name := name; value := ValUintSlice x |} = set_to_nonzero x.
Proof.
  unfold counts, IsZero, DeepEqual, set_to_nonzero; simpl.
  destruct (decide (x = zero)) as [->|Hx].
  - rewrite bool_decide_eq_true_2; reflexivity.
  - rewrite bool_decide_eq_false_2; [reflexivity | congruence].
Qed.

Lemma counts_string name (x : string) :
  counts {| Name := name; value := ValString x |} = set_to_nonzero x.
Proof.
  unfold counts, IsZero, DeepEqual, set_to_nonzero; simpl.
  destruct (decide (x = zero)) as [->|Hx].
  - rewrite bool_decide_eq_true_2; reflexivity.
  - rewrite bool_decide_eq_false_2; [reflexivity | congruence].
Qed.

Lemma nonzero_count_Fields (jfo : JobFindOptions) :
  length (filter (λ f, IsZero f = false) (Fields jfo)) = nonzero_fields jfo.
Proof.
  unfold Fields, nonzero_fields, filters_set.
  rewrite !length_filter_nonzero_cons, filter_nil.
  rewrite counts_ListOptions, counts_slice, !counts_string.
  simpl length. lia.
Qed.

Lemma IsValid_count (jfo : JobFindOptions) :
  IsValid jfo = bool_decide (nonzero_fields jfo ≤ 1)%nat.
Proof.
  unfold IsValid. cbv zeta. rewrite count_loop, nonzero_count_Fields.
  destruct (nonzero_fields jfo) as [|[|n]].
  - reflexivity.
  - reflexivity.
  - rewrite bool_decide_eq_false_2 by lia.
    apply orb_false_intro; apply Z.eqb_neq; lia.
Qed.

(** C1. [IsValid] returns true exactly when the number of fields of
    the record set to a non-zero value, the embedded [ListOptions]
    being one of the four fields, is 0 or 1, and false exactly when it
    is 2 or more. [IsValid] is a function of the record alone: its type
    has no wire and no events. *)
Theorem IsValid_iff_at_most_one_nonzero_field (jfo : JobFindOptions) :
  (IsValid jfo = true ↔ nonzero_fields jfo = 0 ∨ nonzero_fields jfo = 1)
  ∧ (IsValid jfo = false ↔ (2 ≤ nonzero_fields jfo)%nat).
Proof.
  rewrite IsValid_count. split.
  - rewrite bool_decide_eq_true. lia.
  - rewrite bool_decide_eq_false. lia.
Qed.

(** C9. A record with exactly one of the filters [Ids], [State],
    [Queue] set and a non-zero embedded [ListOptions] does not pass
    [IsValid]: the pagination counts as a field like the filters. *)
Theorem IsValid_rejects_filter_with_pagination (jfo : JobFindOptions) :
  filters_set jfo = 1 →
  embedded_ListOptions jfo ≠ zero →
  IsValid jfo = false.
Proof.
  intros Hfilter Hpage. rewrite IsValid_count.
  apply bool_decide_eq_false_2. unfold nonzero_fields.
  rewrite Hfilter. unfold set_to_nonzero.
  rewrite decide_False by assumption. lia.
Qed.

End OptionsTheory.

(** ** The operations follow the exchange *)

Section ServiceTheory.
Context `{tr : Transport}.

Ltac step_collaborators :=
  unfold exchange, mbind, M_bind, mret, M_ret,
    call_urlWithOptions, call_NewRequest, call_Do;
  repeat match goal with
  | |- context [urlWithOptions ?s ?o] =>
      destruct (urlWithOptions s o) as [? [?|]]; cbn [fst snd]; try reflexivity
  | |- context [NewRequest ?m ?u ?b ?h] =>
      destruct (NewRequest m u b h) as [? [?|]]; cbn [fst snd]; try reflexivity
  | |- context [Do ?c ?r ?t ?v ?w] =>
      change (Do c r t _ w) with (Do c r t v w);
      destruct (Do c r t v w) as [[[? ?] [?|]] ?]; cbn [fst snd]; try reflexivity
  end.

Lemma Get_exchange ctx id w :
  Get ctx id w =
    let '((v, resp, err), evs, w') :=
      exchange ctx "GET" ("/jobs/" +:+ pretty id) opt_nil into_getJobResponse w in
    ((if err is Some _ then None else Some (getJobResponse_Job v), resp, err), evs, w').
Proof. unfold Get. step_collaborators. Qed.

Lemma ListFromBuild_exchange ctx buildId w :
  ListFromBuild ctx buildId w =
    let '((v, resp, err), evs, w') :=
      exchange ctx "GET" ("/builds/" +:+ pretty buildId) opt_nil into_getBuildResponse w in
    ((if err is Some _ then None else getBuildResponse_Jobs v, resp, err), evs, w').
Proof. unfold ListFromBuild. step_collaborators. Qed.

Lemma Find_exchange ctx opt w :
  (if opt is Some jfo then IsValid jfo else true) = true →
  Find ctx opt w =
    let '((v, resp, err), evs, w') :=
      exchange ctx "GET" "/jobs" (opt_JobFindOptions opt) into_findJobsResponse w in
    ((if err is Some _ then None else findJobsResponse_Jobs v, resp, err), evs, w').
Proof.
  intros Hvalid. unfold Find.
  replace (if opt is Some jfo then negb (IsValid jfo) else false) with false
    by (destruct opt; [rewrite Hvalid|]; reflexivity).
  step_collaborators.
Qed.

Lemma Cancel_exchange ctx id w :
  Cancel ctx id w =
    let '((_, resp, err), evs, w') :=
      exchange ctx "POST" ("/jobs/" +:+ pretty id +:+ "/cancel") opt_nil into_nil w in
    ((resp, err), evs, w').
Proof. unfold Cancel. step_collaborators. Qed.

Lemma Restart_exchange ctx id w :
  Restart ctx id w =
    let '((_, resp, err), evs, w') :=
      exchange ctx "POST" ("/jobs/" +:+ pretty id +:+ "/restart") opt_nil into_nil w in
    ((resp, err), evs, w').
Proof. unfold Restart. step_collaborators. Qed.

(** The three ways an exchange can go. *)
Lemma exchange_cases {ctx method path opt t w v resp err evs w'} :
  exchange ctx method path opt t w = ((v, resp, err), evs, w') →
  (∃ u e, evs = [ev_urlWithOptions path opt u (Some e)]
          ∧ resp = None ∧ err = Some e ∧ w' = w)
  ∨ (∃ u req e, evs = [ev_urlWithOptions path opt u None;
                       ev_NewRequest method u None None req (Some e)]
                ∧ resp = None ∧ err = Some e ∧ w' = w)
  ∨ (∃ u req, evs = [ev_urlWithOptions path opt u None;
                     ev_NewRequest method u None None req None;
                     ev_Do ctx req (filled_of t v) resp err]).
Proof.
  unfold exchange.
  destruct (urlWithOptions path opt) as [u [e|]].
  - intros [= <- <- <- <- <-]. left. exists u, e. repeat split.
  - destruct (NewRequest method u None None) as [req [e|]].
    + intros [= <- <- <- <- <-]. right. left. exists u, req, e. repeat split.
    + destruct (Do ctx req t (pointee_zero t) w) as [[[v0 resp0] err0] w0].
      intros [= <- <- <- <- <-]. right. right. exists u, req. reflexivity.
Qed.

Lemma exchange_builds_url {ctx method path opt t w res evs w'} :
  exchange ctx method path opt t w = (res, evs, w') →
  builds_url path opt evs.
Proof.
  destruct res as [[v resp] err]. intros Hx.
  destruct (exchange_cases Hx)
    as [(u & e & -> & _)|[(u & req & e & -> & _)|(u & req & ->)]];
    unfold builds_url; eauto.
Qed.

Lemma exchange_at_most_one_round_trip {ctx method path opt t w res evs w'} :
  exchange ctx method path opt t w = (res, evs, w') →
  (length (round_trips evs) ≤ 1)%nat.
Proof.
  destruct res as [[v resp] err]. intros Hx.
  destruct (exchange_cases Hx)
    as [(u & e & -> & _)|[(u & req & e & -> & _)|(u & req & ->)]];
    simpl; lia.
Qed.




(** Without a round trip the wire is as it was. *)
Lemma exchange_no_round_trip ctx method path opt t w res evs w' :
  exchange ctx method path opt t w = (res, evs, w') →
  round_trips evs = [] →
  w' = w.
Proof.
  destruct res as [[v resp] err]. intros Hx Hnone.
  destruct (exchange_cases Hx)
    as [(u & e & -> & _ & _ & ->)|[(u & req & e & -> & _ & _ & ->)|(u & req & ->)]];
    try reflexivity.
  discriminate Hnone.
Qed.

(** The exchange, from what the collaborators answer. *)
Lemma exchange_url_error {ctx method path opt t w u e} :
  urlWithOptions path opt = (u, Some e) →
  exchange ctx method path opt t w
  = ((pointee_zero t, None, Some e), [ev_urlWithOptions path opt u (Some e)], w).
Proof. intros Hu. unfold exchange. rewrite Hu. reflexivity. Qed.

Lemma exchange_request_error {ctx method path opt t w u req e} :
  urlWithOptions path opt = (u, None) →
  NewRequest method u None None = (req, Some e) →
  exchange ctx method path opt t w
  = ((pointee_zero t, None, Some e),
     [ev_urlWithOptions path opt u None;
      ev_NewRequest method u None None req (Some e)], w).
Proof. intros Hu Hr. unfold exchange. rewrite Hu, Hr. reflexivity. Qed.

Lemma exchange_round_trip_made {ctx method path opt t w u req v resp err w'} :
  urlWithOptions path opt = (u, None) →
  NewRequest method u None None = (req, None) →
  Do ctx req t (pointee_zero t) w = ((v, resp, err), w') →
  exchange ctx method path opt t w
  = ((v, resp, err),
     [ev_urlWithOptions path opt u None;
      ev_NewRequest method u None None req None;
      ev_Do ctx req (filled_of t v) resp err], w').
Proof. intros Hu Hr Hd. unfold exchange. rewrite Hu, Hr, Hd. reflexivity. Qed.

(** Every operation whose options pass the validation hands over the
    response and the error of the exchange of its endpoint. *)
Lemma perform_exchange ctx op w :
  passes_validation op = true →
  perform ctx op w =
    let '((_, resp, err), evs, w') :=
      exchange ctx (method_of op) (path_of op) (options_of op) (target_of op) w in
    ((resp, err), evs, w').
Proof.
  intros Hvalid. destruct op as [id|buildId|opt|id|id]; simpl perform;
    unfold mbind, M_bind, mret, M_ret.
  - rewrite Get_exchange. simpl.
    destruct (exchange _ _ _ _ _ _) as [[[[v resp] err] evs] w'].
    rewrite app_nil_r. reflexivity.
  - rewrite ListFromBuild_exchange. simpl.
    destruct (exchange _ _ _ _ _ _) as [[[[v resp] err] evs] w'].
    rewrite app_nil_r. reflexivity.
  - rewrite Find_exchange by (destruct opt; assumption). simpl.
    destruct (exchange _ _ _ _ _ _) as [[[[v resp] err] evs] w'].
    rewrite app_nil_r. reflexivity.
  - rewrite Cancel_exchange. simpl.
    destruct (exchange _ _ _ _ _ _) as [[[[v resp] err] evs] w']. reflexivity.
  - rewrite Restart_exchange. simpl.
    destruct (exchange _ _ _ _ _ _) as [[[[v resp] err] evs] w']. reflexivity.
Qed.

Lemma Find_invalid ctx {jfo : JobFindOptions} w :
  IsValid jfo = false →
  Find ctx (Some jfo) w
  = ((None, None,
      Some (Errorf "more than one value set in provided JobFindOptions instance")),
     [], w).
Proof. intros Hinv. unfold Find. rewrite Hinv. reflexivity. Qed.

(** No operation makes more than one round trip. *)
Lemma perform_at_most_one_round_trip ctx op w :
  (length (round_trips (events_of (perform ctx op) w)) ≤ 1)%nat.
Proof.
  unfold events_of. destruct (passes_validation op) eqn:Hvalid.
  - rewrite perform_exchange by assumption.
    destruct (exchange _ _ _ _ _ _) as [[[[v resp] err] evs] w'] eqn:Hx.
    exact (exchange_at_most_one_round_trip Hx).
  - destruct op as [id|buildId|[jfo|]|id|id]; try discriminate Hvalid.
    simpl in Hvalid. simpl perform. unfold mbind, M_bind.
    rewrite (Find_invalid _ _ Hvalid). simpl. lia.
Qed.

(** The path of a job tells the jobs apart: the identifier is
    rendered in full. *)
Lemma job_path_inj (a b : uint) :
  "/jobs/" +:+ pretty a = "/jobs/" +:+ pretty b → a = b.
Proof.
  intros Heq. apply (inj (String.append "/jobs/")) in Heq.
  exact (inj pretty a b Heq).
Qed.

(** ** The claims on the operations *)

(** C2. Find, given a non-nil [JobFindOptions] that does not pass
    [IsValid], returns a nil job list, a nil response and a non-nil
    error; no collaborator is called (no URL or request is built and
    nothing is sent) and the wire is left as it was. *)
Theorem Find_invalid_options_no_network ctx (jfo : JobFindOptions) w :
  IsValid jfo = false →
  ∃ e, Find ctx (Some jfo) w = ((None, None, Some e), [], w)
       ∧ Error e = "more than one value set in provided JobFindOptions instance".
Proof.
  intros Hinv. eexists. split.
  - apply Find_invalid. exact Hinv.
  - reflexivity.
Qed.


(** C4, as the code has it. When Get returns a job and a nil error,
    the job is the one the round trip left in the envelope
    [getJobResponse]; Get compares no identifier, so the [Id] of the
    job is the requested one exactly when the envelope carries it. *)
Theorem Get_returns_the_decoded_job ctx id w j resp evs w' :
  Get ctx id w = ((Some j, resp, None), evs, w') →
  ∃ v, one_exchange ctx "GET" ("/jobs/" +:+ pretty id) opt_nil evs
         (filled_getJobResponse v) resp None
       ∧ j = getJobResponse_Job v
       ∧ (Id j = id ↔ Id (getJobResponse_Job v) = id).
Proof.
  rewrite Get_exchange.
  destruct (exchange _ _ _ _ _ _) as [[[[v resp0] [e|]] evs0] w0] eqn:Hx;
    [discriminate|].
  intros [= <- <- <- <-]. exists v.
  destruct (exchange_cases Hx)
    as [(u & e & _ & _ & [=] & _)|[(u & req & e & _ & _ & [=] & _)|(u & req & ->)]].
  split; [exists u, req; reflexivity | split; reflexivity].
Qed.


(** C6. When the URL and the request are built and the round trip
    [Do] answers with a response and an error, Get, ListFromBuild and
    Find (on options that pass the validation) each return a nil
    typed result, that very response and that very error; the round
    trip is their last call and the wire is as [Do] left it. *)
Theorem round_trip_error_keeps_response ctx w :
  (∀ id u req v resp e w',
     urlWithOptions ("/jobs/" +:+ pretty id) opt_nil = (u, None) →
     NewRequest "GET" u None None = (req, None) →
     Do ctx req into_getJobResponse zero w = ((v, resp, Some e), w') →
     Get ctx id w
     = ((None, resp, Some e),
        [ev_urlWithOptions ("/jobs/" +:+ pretty id) opt_nil u None;
         ev_NewRequest "GET" u None None req None;
         ev_Do ctx req (filled_getJobResponse v) resp (Some e)], w'))
  ∧ (∀ buildId u req v resp e w',
       urlWithOptions ("/builds/" +:+ pretty buildId) opt_nil = (u, None) →
       NewRequest "GET" u None None = (req, None) →
       Do ctx req into_getBuildResponse zero w = ((v, resp, Some e), w') →
       ListFromBuild ctx buildId w
       = ((None, resp, Some e),
          [ev_urlWithOptions ("/builds/" +:+ pretty buildId) opt_nil u None;
           ev_NewRequest "GET" u None None req None;
           ev_Do ctx req (filled_getBuildResponse v) resp (Some e)], w'))
  ∧ (∀ opt u req v resp e w',
       (if opt is Some jfo then IsValid jfo else true) = true →
       urlWithOptions "/jobs" (opt_JobFindOptions opt) = (u, None) →
       NewRequest "GET" u None None = (req, None) →
       Do ctx req into_findJobsResponse zero w = ((v, resp, Some e), w') →
       Find ctx opt w
       = ((None, resp, Some e),
          [ev_urlWithOptions "/jobs" (opt_JobFindOptions opt) u None;
           ev_NewRequest "GET" u None None req None;
           ev_Do ctx req (filled_findJobsResponse v) resp (Some e)], w')).
Proof.
  split; [|split].
  - intros id u req v resp e w' Hu Hr Hd. rewrite Get_exchange.
    rewrite (exchange_round_trip_made (t := into_getJobResponse) Hu Hr Hd).
    reflexivity.
  - intros buildId u req v resp e w' Hu Hr Hd. rewrite ListFromBuild_exchange.
    rewrite (exchange_round_trip_made (t := into_getBuildResponse) Hu Hr Hd).
    reflexivity.
  - intros opt u req v resp e w' Hvalid Hu Hr Hd.
    rewrite Find_exchange by exact Hvalid.
    rewrite (exchange_round_trip_made (t := into_findJobsResponse) Hu Hr Hd).
    reflexivity.
Qed.


(** C8. Cancel and Restart ask [urlWithOptions] for
    "/jobs/<id>/cancel" and "/jobs/<id>/restart" with nil options and
    [NewRequest] for a POST to the URL they got, without body or
    headers; they send that request in one round trip that decodes
    into nothing, and return the response and the error [Do]
    answered, whatever the status, leaving the wire as [Do] left
    it. *)
Theorem Cancel_Restart_post_and_pass_response ctx id w :
  (∀ u req v resp err w',
     urlWithOptions ("/jobs/" +:+ pretty id +:+ "/cancel") opt_nil = (u, None) →
     NewRequest "POST" u None None = (req, None) →
     Do ctx req into_nil () w = ((v, resp, err), w') →
     Cancel ctx id w
     = ((resp, err),
        [ev_urlWithOptions ("/jobs/" +:+ pretty id +:+ "/cancel") opt_nil u None;
         ev_NewRequest "POST" u None None req None;
         ev_Do ctx req filled_nil resp err], w'))
  ∧ (∀ u req v resp err w',
       urlWithOptions ("/jobs/" +:+ pretty id +:+ "/restart") opt_nil = (u, None) →
       NewRequest "POST" u None None = (req, None) →
       Do ctx req into_nil () w = ((v, resp, err), w') →
       Restart ctx id w
       = ((resp, err),
          [ev_urlWithOptions ("/jobs/" +:+ pretty id +:+ "/restart") opt_nil u None;
           ev_NewRequest "POST" u None None req None;
           ev_Do ctx req filled_nil resp err], w')).
Proof.
  split; intros u req v resp err w' Hu Hr Hd.
  - rewrite Cancel_exchange.
    rewrite (exchange_round_trip_made (t := into_nil) Hu Hr Hd). reflexivity.
  - rewrite Restart_exchange.
    rewrite (exchange_round_trip_made (t := into_nil) Hu Hr Hd). reflexivity.
Qed.

(** C10. Find, given nil options, validates nothing and goes to the
    collaborators: it asks [urlWithOptions] for "/jobs" with the nil
    pointer; an error of the URL or of the request construction is
    returned as it is, with nothing sent; otherwise the GET request
    is sent in one round trip decoding into [findJobsResponse], and
    Find returns what [Do] answered: the jobs of the envelope (nil
    under an error), the response and the error. In no case is the
    error the one of the validation unless a collaborator reported
    it. *)
Theorem Find_nil_options_not_validated ctx w :
  (∀ u e,
     urlWithOptions "/jobs" (opt_JobFindOptions None) = (u, Some e) →
     Find ctx None w
     = ((None, None, Some e),
        [ev_urlWithOptions "/jobs" (opt_JobFindOptions None) u (Some e)], w))
  ∧ (∀ u req e,
       urlWithOptions "/jobs" (opt_JobFindOptions None) = (u, None) →
       NewRequest "GET" u None None = (req, Some e) →
       Find ctx None w
       = ((None, None, Some e),
          [ev_urlWithOptions "/jobs" (opt_JobFindOptions None) u None;
           ev_NewRequest "GET" u None None req (Some e)], w))
  ∧ (∀ u req v resp err w',
       urlWithOptions "/jobs" (opt_JobFindOptions None) = (u, None) →
       NewRequest "GET" u None None = (req, None) →
       Do ctx req into_findJobsResponse zero w = ((v, resp, err), w') →
       Find ctx None w
       = ((if err is Some _ then None else findJobsResponse_Jobs v, resp, err),
          [ev_urlWithOptions "/jobs" (opt_JobFindOptions None) u None;
           ev_NewRequest "GET" u None None req None;
           ev_Do ctx req (filled_findJobsResponse v) resp err], w')).
Proof.
  split; [|split].
  - intros u e Hu. rewrite Find_exchange by reflexivity.
    rewrite (exchange_url_error (t := into_findJobsResponse) Hu). reflexivity.
  - intros u req e Hu Hr. rewrite Find_exchange by reflexivity.
    rewrite (exchange_request_error (t := into_findJobsResponse) Hu Hr). reflexivity.
  - intros u req v resp err w' Hu Hr Hd. rewrite Find_exchange by reflexivity.
    rewrite (exchange_round_trip_made (t := into_findJobsResponse) Hu Hr Hd).
    reflexivity.
Qed.

End ServiceTheory.

(** ** The operations on the scripted transport *)

Example path_of_job_120 : path_of (op_Get 120) = "/jobs/120".
Proof. reflexivity. Qed.

Example path_of_cancel_7 : path_of (op_Cancel 7) = "/jobs/7/cancel".
Proof. reflexivity. Qed.

Example IsValid_only_passed : IsValid only_passed = true.
Proof. reflexivity. Qed.

Example IsValid_empty_Ids_and_State :
  IsValid {| embedded_ListOptions := zero; Ids := Some []; State := "passed"; Queue := "" |}
  = false.
Proof. reflexivity. Qed.

Lemma IsValid_rejects_filter_with_pagination_witness :
  filters_set passed_after_100 = 1
  ∧ embedded_ListOptions passed_after_100 ≠ zero
  ∧ IsValid passed_after_100 = false.
Proof.
  split; [reflexivity|]. split; [discriminate|].
  apply (IsValid_rejects_filter_with_pagination passed_after_100);
    [reflexivity | discriminate].
Defined.

Lemma Find_invalid_options_no_network_witness :
  IsValid passed_and_linux = false
  ∧ ∃ e, Find (tr := scripted) () (Some passed_and_linux) [answers_404]
         = ((None, None, Some e), [], [answers_404])
         ∧ Error e = "more than one value set in provided JobFindOptions instance".
Proof.
  split; [reflexivity|].
  apply (Find_invalid_options_no_network (tr := scripted) () passed_and_linux [answers_404]).
  reflexivity.
Defined.


(** Get of job 1 answered by 200 and the envelope of job 2. *)
Lemma Get_id_not_compared_counterexample :
  ∃ j r evs w',
    Get (tr := scripted) () 1 [answers_job_2] = ((Some j, Some r, None), evs, w')
    ∧ StatusCode r = 200%Z
    ∧ Id j = 2%N
    ∧ Id j ≠ 1%N.
Proof.
  exists job_2, ok_200. eexists. exists [].
  split; [reflexivity|]. split; [reflexivity|]. split; [reflexivity|discriminate].
Qed.

Lemma Get_returns_the_decoded_job_witness :
  let run := Get (tr := scripted) () 1 in
  let w := [answers_job_2] in
  result_of run w = (Some job_2, Some ok_200, None)
  ∧ ∃ v, one_exchange () "GET" "/jobs/1" opt_nil (events_of run w)
           (filled_getJobResponse v) (Some ok_200) None
         ∧ job_2 = getJobResponse_Job v
         ∧ (Id job_2 = 1%N ↔ Id (getJobResponse_Job v) = 1%N).
Proof.
  split; [reflexivity|].
  apply (Get_returns_the_decoded_job (tr := scripted) () 1 [answers_job_2] job_2
           (Some ok_200) (events_of (Get (tr := scripted) () 1) [answers_job_2]) []).
  reflexivity.
Defined.


(** The round trip fails in three ways: Get gets a 200 whose body
    does not decode, ListFromBuild a 404 reported as an error, Find a
    refused connection and no response. Each returns what [Do]
    answered, and a nil result. *)
Lemma round_trip_error_keeps_response_witness :
  Get (tr := scripted) () 5 [answers_garbled; answers_202]
  = ((None, Some ok_200,
      Some (Errorf "invalid character '<' looking for beginning of value")),
     [ev_urlWithOptions "/jobs/5" opt_nil "/jobs/5" None;
      ev_NewRequest "GET" "/jobs/5" None None
        (Some {| Method := "GET"; URL := "/jobs/5" |}) None;
      ev_Do () (Some {| Method := "GET"; URL := "/jobs/5" |})
        (filled_getJobResponse zero) (Some ok_200)
        (Some (Errorf "invalid character '<' looking for beginning of value"))],
     [answers_202])
  ∧ ListFromBuild (tr := scripted) () 9 [answers_404_as_error]
    = ((None, Some not_found_404, Some (Errorf "GET /builds/9: 404")),
       [ev_urlWithOptions "/builds/9" opt_nil "/builds/9" None;
        ev_NewRequest "GET" "/builds/9" None None
          (Some {| Method := "GET"; URL := "/builds/9" |}) None;
        ev_Do () (Some {| Method := "GET"; URL := "/builds/9" |})
          (filled_getBuildResponse zero) (Some not_found_404)
          (Some (Errorf "GET /builds/9: 404"))],
       [])
  ∧ Find (tr := scripted) () (Some only_passed) []
    = ((None, None, Some (Errorf "connection refused")),
       [ev_urlWithOptions "/jobs" (opt_JobFindOptions (Some only_passed)) "/jobs" None;
        ev_NewRequest "GET" "/jobs" None None
          (Some {| Method := "GET"; URL := "/jobs" |}) None;
        ev_Do () (Some {| Method := "GET"; URL := "/jobs" |})
          (filled_findJobsResponse zero) None
          (Some (Errorf "connection refused"))],
       []).
Proof.
  split; [|split].
  - apply (proj1 (round_trip_error_keeps_response (tr := scripted) ()
                    [answers_garbled; answers_202])); reflexivity.
  - apply (proj1 (proj2 (round_trip_error_keeps_response (tr := scripted) ()
                           [answers_404_as_error]))); reflexivity.
  - apply (proj2 (proj2 (round_trip_error_keeps_response (tr := scripted) () [])));
      reflexivity.
Defined.


(** Cancel of job 7 answered by 202, Restart of job 7 answered by
    404 without error: either response comes back as it is. *)
Lemma Cancel_Restart_post_and_pass_response_witness :
  Cancel (tr := scripted) () 7 [answers_202; answers_404]
  = ((Some accepted_202, None),
     [ev_urlWithOptions "/jobs/7/cancel" opt_nil "/jobs/7/cancel" None;
      ev_NewRequest "POST" "/jobs/7/cancel" None None
        (Some {| Method := "POST"; URL := "/jobs/7/cancel" |}) None;
      ev_Do () (Some {| Method := "POST"; URL := "/jobs/7/cancel" |})
        filled_nil (Some accepted_202) None],
     [answers_404])
  ∧ Restart (tr := scripted) () 7 [answers_404]
    = ((Some not_found_404, None),
       [ev_urlWithOptions "/jobs/7/restart" opt_nil "/jobs/7/restart" None;
        ev_NewRequest "POST" "/jobs/7/restart" None None
          (Some {| Method := "POST"; URL := "/jobs/7/restart" |}) None;
        ev_Do () (Some {| Method := "POST"; URL := "/jobs/7/restart" |})
          filled_nil (Some not_found_404) None],
       []).
Proof.
  split.
  - apply (proj1 (Cancel_Restart_post_and_pass_response (tr := scripted) () 7
                    [answers_202; answers_404]) _ _ ()); reflexivity.
  - apply (proj2 (Cancel_Restart_post_and_pass_response (tr := scripted) () 7
                    [answers_404]) _ _ ()); reflexivity.
Defined.

(** Find with nil options, served the jobs 3 and 1, returns them in
    that order with the 200; on a wire that refuses the connection it
    returns the error of the round trip. *)
Lemma Find_nil_options_not_validated_witness :
  Find (tr := scripted) () None [answers_jobs_3_1; answers_404]
  = ((Some jobs_3_1, Some ok_200, None),
     [ev_urlWithOptions "/jobs" (opt_JobFindOptions None) "/jobs" None;
      ev_NewRequest "GET" "/jobs" None None
        (Some {| Method := "GET"; URL := "/jobs" |}) None;
      ev_Do () (Some {| Method := "GET"; URL := "/jobs" |})
        (filled_findJobsResponse (@Build_findJobsResponse scripted_package (Some jobs_3_1)))
        (Some ok_200) None],
     [answers_404])
  ∧ Find (tr := scripted) () None []
    = ((None, None, Some (Errorf "connection refused")),
       [ev_urlWithOptions "/jobs" (opt_JobFindOptions None) "/jobs" None;
        ev_NewRequest "GET" "/jobs" None None
          (Some {| Method := "GET"; URL := "/jobs" |}) None;
        ev_Do () (Some {| Method := "GET"; URL := "/jobs" |})
          (filled_findJobsResponse zero) None
          (Some (Errorf "connection refused"))],
       []).
Proof.
  split.
  - apply (proj2 (proj2 (Find_nil_options_not_validated (tr := scripted) ()
                           [answers_jobs_3_1; answers_404]))
             "/jobs" (Some {| Method := "GET"; URL := "/jobs" |})
             (@Build_findJobsResponse scripted_package (Some jobs_3_1)) (Some ok_200) None);
      reflexivity.
  - apply (proj2 (proj2 (Find_nil_options_not_validated (tr := scripted) () []))
             "/jobs" (Some {| Method := "GET"; URL := "/jobs" |})
             zero None (Some (Errorf "connection refused")));
      reflexivity.
Defined.

(** * Further properties *)

(** ** The paths are told apart *)

Lemma is_digit_pretty_N_char (x : N) : is_digit (pretty_N_char x) = true.
Proof.
  destruct x as [|p]; [reflexivity|].
  do 4 (destruct p as [p|p|]; try reflexivity).
Qed.

Lemma all_digits_pretty_N_go (x : N) (s : string) :
  all_digits s = true → all_digits (pretty_N_go x s) = true.
Proof.
  revert s. induction (N.lt_wf_0 x) as [x _ IH]; intros s Hs.
  destruct (decide (x = 0%N)) as [->|Hx].
  - rewrite pretty_N_go_0. exact Hs.
  - rewrite pretty_N_go_step by lia. apply IH.
    + apply N.div_lt; lia.
    + simpl. rewrite is_digit_pretty_N_char. exact Hs.
Qed.

Lemma all_digits_pretty (x : uint) : all_digits (pretty x) = true.
Proof.
  unfold pretty, pretty_N. case_decide.
  - reflexivity.
  - apply all_digits_pretty_N_go. reflexivity.
Qed.

Lemma append_nil (s : string) : "" +:+ s = s.
Proof. reflexivity. Qed.

Lemma append_cons c (s t : string) : String c s +:+ t = String c (s +:+ t).
Proof. reflexivity. Qed.

Lemma all_digits_app (s1 s2 : string) :
  all_digits (s1 +:+ s2) = all_digits s1 && all_digits s2.
Proof.
  induction s1 as [|c s1 IH].
  - reflexivity.
  - rewrite append_cons. simpl. rewrite IH. apply andb_assoc.
Qed.

(** A run of digits before a slash is read in one way only. *)
Lemma digits_then_slash_inj (s1 s2 t1 t2 : string) :
  all_digits s1 = true → all_digits s2 = true →
  s1 +:+ ("/" +:+ t1) = s2 +:+ ("/" +:+ t2) →
  s1 = s2 ∧ t1 = t2.
Proof.
  revert s2. induction s1 as [|c1 s1 IH]; intros [|c2 s2] H1 H2 Heq;
    rewrite ?append_cons, ?append_nil in Heq; simpl in H1, H2.
  - injection Heq as ->. auto.
  - injection Heq as <- _. discriminate H2.
  - injection Heq as -> _. discriminate H1.
  - injection Heq as -> Heq.
    apply andb_prop in H1 as [_ H1]. apply andb_prop in H2 as [_ H2].
    destruct (IH s2 H1 H2 Heq) as [-> ->]. auto.
Qed.

Lemma digits_no_slash (s1 s2 t : string) :
  all_digits s1 = true → s1 ≠ s2 +:+ ("/" +:+ t).
Proof.
  intros H1 ->. rewrite all_digits_app in H1.
  apply andb_prop in H1 as [_ H1]. discriminate H1.
Qed.

Section FurtherOptionsTheory.
Context `{pkg : Package}.

Lemma path_of_inj (op1 op2 : operation) :
  path_of op1 = path_of op2 → same_endpoint op1 op2.
Proof.
  assert (Hd : ∀ x : uint, all_digits (pretty x) = true) by apply all_digits_pretty.
  destruct op1 as [a|a|o1|a|a], op2 as [b|b|o2|b|b]; simpl; intros Heq;
    try exact I; rewrite ?append_cons, ?append_nil in Heq;
    try discriminate Heq;
    repeat (injection Heq as Heq);
    try (exact (inj pretty a b Heq));
    try (exfalso; exact (digits_no_slash _ _ _ (Hd _) Heq));
    try (exfalso; symmetry in Heq; exact (digits_no_slash _ _ _ (Hd _) Heq));
    try (destruct (digits_then_slash_inj _ _ _ _ (Hd a) (Hd b) Heq) as [Hp Hs];
         first [discriminate Hs | exact (inj pretty a b Hp)]).
Qed.

Lemma set_to_nonzero_cleared {A} `{!EqDecision A} `{!ZeroValue A} (x' x : A) :
  x' = x ∨ x' = zero → (set_to_nonzero x' ≤ set_to_nonzero x)%nat.
Proof.
  intros [->| ->]; [lia|]. unfold set_to_nonzero.
  rewrite decide_True by reflexivity. lia.
Qed.

(** X10. Resetting fields of a record that passes [IsValid] to their
    zero values gives a record that passes it too. *)
Theorem IsValid_cleared (jfo' jfo : JobFindOptions) :
  cleared jfo' jfo → IsValid jfo = true → IsValid jfo' = true.
Proof.
  intros (H1 & H2 & H3 & H4). rewrite !IsValid_count, !bool_decide_eq_true.
  unfold nonzero_fields, filters_set.
  pose proof (set_to_nonzero_cleared _ _ H1).
  pose proof (set_to_nonzero_cleared _ _ H2).
  pose proof (set_to_nonzero_cleared _ _ H3).
  pose proof (set_to_nonzero_cleared _ _ H4).
  lia.
Qed.

End FurtherOptionsTheory.

(** ** The operations, call by call *)

Section FurtherServiceTheory.
Context `{tr : Transport}.

Lemma perform_invalid ctx (jfo : JobFindOptions) w :
  IsValid jfo = false →
  perform ctx (op_Find (Some jfo)) w
  = ((None,
      Some (Errorf "more than one value set in provided JobFindOptions instance")),
     [], w).
Proof.
  intros Hinv. simpl perform. unfold mbind, M_bind.
  rewrite (Find_invalid _ _ Hinv). reflexivity.
Qed.

(** The four ways an operation can go: rejected by the validation,
    stopped by the URL construction, stopped by the request
    construction, or through the round trip. *)
Lemma perform_cases {ctx op w resp err evs w'} :
  perform ctx op w = ((resp, err), evs, w') →
  (validation_fails op ∧ evs = [] ∧ resp = None ∧ is_Some err ∧ w' = w)
  ∨ (∃ u e, evs = [ev_urlWithOptions (path_of op) (options_of op) u (Some e)]
            ∧ resp = None ∧ err = Some e ∧ w' = w)
  ∨ (∃ u req e, evs = [ev_urlWithOptions (path_of op) (options_of op) u None;
                       ev_NewRequest (method_of op) u None None req (Some e)]
                ∧ resp = None ∧ err = Some e ∧ w' = w)
  ∨ (∃ u req v, evs = [ev_urlWithOptions (path_of op) (options_of op) u None;
                       ev_NewRequest (method_of op) u None None req None;
                       ev_Do ctx req v resp err]).
Proof.
  intros Hrun. destruct (passes_validation op) eqn:Hvalid.
  - rewrite perform_exchange in Hrun by assumption.
    destruct (exchange _ _ _ _ _ _) as [[[[v0 resp0] err0] evs0] w0] eqn:Hx.
    injection Hrun as -> -> -> ->. right.
    destruct (exchange_cases Hx)
      as [(u & e & -> & -> & -> & ->)
         |[(u & req & e & -> & -> & -> & ->)|(u & req & ->)]].
    + left. exists u, e. auto.
    + right. left. exists u, req, e. auto.
    + right. right. exists u, req, (filled_of (target_of op) v0). reflexivity.
  - destruct op as [id|buildId|[jfo|]|id|id]; try discriminate Hvalid.
    simpl in Hvalid. rewrite (perform_invalid _ _ _ Hvalid) in Hrun.
    injection Hrun as <- <- <- <-. left. simpl. eauto.
Qed.


(** X2. Find calls no collaborator exactly when it was given options
    that do not pass [IsValid]: with nil options or valid ones its
    run has events, the first of them the URL construction. *)
Theorem Find_calls_nothing_iff_invalid ctx opt w res evs w' :
  Find ctx opt w = (res, evs, w') →
  (evs = [] ↔ ∃ jfo, opt = Some jfo ∧ IsValid jfo = false).
Proof.
  intros Hrun. destruct (if opt is Some jfo then IsValid jfo else true) eqn:Hvalid.
  - rewrite Find_exchange in Hrun by assumption.
    destruct (exchange _ _ _ _ _ _) as [[[[v resp0] err0] evs0] w0] eqn:Hx.
    injection Hrun as <- <- <-.
    destruct (exchange_builds_url Hx) as (u & e & rest & ->). split.
    + discriminate.
    + intros (jfo & -> & Hinv). rewrite Hinv in Hvalid. discriminate Hvalid.
  - destruct opt as [jfo|]; [|discriminate Hvalid].
    rewrite (Find_invalid _ _ Hvalid) in Hrun. injection Hrun as <- <- <-.
    split; [|reflexivity]. intros _. exists jfo. auto.
Qed.


(** X4. Get returns a nil job exactly when it returns an error; with
    a nil error the job pointer can be followed. ListFromBuild and
    Find return a nil list whenever they return an error. *)
Theorem typed_result_nil_under_error ctx w :
  (∀ id j resp err evs w',
     Get ctx id w = ((j, resp, err), evs, w') → (j = None ↔ err ≠ None))
  ∧ (∀ buildId jobs resp err evs w',
       ListFromBuild ctx buildId w = ((jobs, resp, err), evs, w') →
       err ≠ None → jobs = None)
  ∧ (∀ opt jobs resp err evs w',
       Find ctx opt w = ((jobs, resp, err), evs, w') →
       err ≠ None → jobs = None).
Proof.
  split; [|split].
  - intros id j resp err evs w'. rewrite Get_exchange.
    destruct (exchange _ _ _ _ _ _) as [[[[v resp0] [e|]] evs0] w0].
    + intros [= <- <- <- <- <-]. split; [discriminate | reflexivity].
    + intros [= <- <- <- <- <-]. split; [discriminate | congruence].
  - intros buildId jobs resp err evs w'. rewrite ListFromBuild_exchange.
    destruct (exchange _ _ _ _ _ _) as [[[[v resp0] [e|]] evs0] w0];
      intros [= <- <- <- <- <-] Herr; [reflexivity | congruence].
  - intros opt jobs resp err evs w'.
    destruct (if opt is Some jfo then IsValid jfo else true) eqn:Hvalid.
    + rewrite Find_exchange by assumption.
      destruct (exchange _ _ _ _ _ _) as [[[[v resp0] [e|]] evs0] w0];
        intros [= <- <- <- <- <-] Herr; [reflexivity | congruence].
    + destruct opt as [jfo|]; [|discriminate Hvalid].
      rewrite (Find_invalid _ _ Hvalid). intros [= <- <- <- <- <-] _. reflexivity.
Qed.

(** X5. No operation hands a body or headers to [NewRequest], and the
    method is GET for Get, ListFromBuild and Find, POST for Cancel
    and Restart. *)
Theorem requests_carry_no_body ctx op w res evs w' m u body headers req e :
  perform ctx op w = (res, evs, w') →
  ev_NewRequest m u body headers req e ∈ evs →
  body = None ∧ headers = None ∧ m = method_of op.
Proof.
  destruct res as [resp err]. intros Hrun Hin.
  destruct (perform_cases Hrun)
    as [(_ & -> & _)
       |[(u0 & e0 & -> & _)
        |[(u0 & req0 & e0 & -> & _)|(u0 & req0 & v & ->)]]];
    repeat (apply elem_of_cons in Hin as [Hin|Hin]; [try discriminate Hin|]);
    try (apply elem_of_nil in Hin; contradiction);
    injection Hin as -> -> -> -> -> ->; auto.
Qed.


(** X7. An operation makes one round trip when its run has events
    and neither the URL nor the request construction reported an
    error, and none otherwise. *)
Theorem round_trip_count ctx op w res evs w' :
  perform ctx op w = (res, evs, w') →
  (length (round_trips evs) ≤ 1)%nat
  ∧ (length (round_trips evs) = 1 ↔ evs ≠ [] ∧ constructed evs).
Proof.
  destruct res as [resp err]. intros Hrun.
  destruct (perform_cases Hrun)
    as [(_ & -> & _)
       |[(u & e & -> & _)
        |[(u & req & e & -> & _)|(u & req & v & ->)]]]; simpl.
  - split; [lia|]. split; [discriminate | intros [Hne _]; contradiction].
  - split; [lia|]. split; [discriminate|]. intros [_ Hc].
    specialize (Hc (ev_urlWithOptions (path_of op) (options_of op) u (Some e))).
    discriminate Hc; [left | reflexivity].
  - split; [lia|]. split; [discriminate|]. intros [_ Hc].
    specialize (Hc (ev_NewRequest (method_of op) u None None req (Some e))).
    discriminate Hc; [right; left | reflexivity].
  - split; [lia|]. split; [|reflexivity]. intros _. split; [discriminate|].
    intros ev Hin Hnot.
    repeat (apply elem_of_cons in Hin as [->|Hin]; [try reflexivity; try discriminate Hnot|]).
    apply elem_of_nil in Hin. contradiction.
Qed.

(** X8. Two runs that ask a URL for the same path are runs of the
    same operation on the same identifier: the paths of Get,
    ListFromBuild, Find, Cancel and Restart never coincide, and the
    decimal identifier in a path is read in one way only. *)
Theorem same_path_same_endpoint ctx1 ctx2 op1 op2 w1 w2 res1 res2 evs1 evs2 w1' w2' path :
  perform ctx1 op1 w1 = (res1, evs1, w1') →
  perform ctx2 op2 w2 = (res2, evs2, w2') →
  path_built evs1 = Some path →
  path_built evs2 = Some path →
  same_endpoint op1 op2.
Proof.
  destruct res1 as [resp1 err1], res2 as [resp2 err2]. intros Hrun1 Hrun2 H1 H2.
  assert (Hp1 : path = path_of op1).
  { destruct (perform_cases Hrun1)
      as [(_ & -> & _)
         |[(u & e & -> & _)
          |[(u & req & e & -> & _)|(u & req & v & ->)]]];
      simpl in H1; congruence. }
  assert (Hp2 : path = path_of op2).
  { destruct (perform_cases Hrun2)
      as [(_ & -> & _)
         |[(u & e & -> & _)
          |[(u & req & e & -> & _)|(u & req & v & ->)]]];
      simpl in H2; congruence. }
  apply path_of_inj. congruence.
Qed.

(** X9. An empty [Ids] slice that is not nil counts as a field that
    is set: with one more field set beside it the record does not pass
    [IsValid], and Find rejects it before any call. *)
Theorem Find_rejects_empty_Ids_beside_a_field ctx (jfo : JobFindOptions) w :
  Ids jfo = Some [] →
  embedded_ListOptions jfo ≠ zero ∨ State jfo ≠ "" ∨ Queue jfo ≠ "" →
  IsValid jfo = false
  ∧ ∃ e, Find ctx (Some jfo) w = ((None, None, Some e), [], w).
Proof.
  intros Hids Hother.
  assert (Hinv : IsValid jfo = false).
  { rewrite IsValid_count. apply bool_decide_eq_false_2.
    unfold nonzero_fields, filters_set.
    assert (set_to_nonzero (Ids jfo) = 1) as ->
      by (rewrite Hids; reflexivity).
    unfold set_to_nonzero.
    destruct Hother as [Ho|[Ho|Ho]];
      repeat case_decide; try lia; contradiction. }
  split; [exact Hinv|]. eexists. exact (Find_invalid _ _ Hinv).
Qed.


End FurtherServiceTheory.

(** ** The further properties on the scripted transport *)

Lemma IsValid_cleared_witness :
  let none_set : JobFindOptions :=
    {| embedded_ListOptions := zero; Ids := None; State := ""; Queue := "" |} in
  cleared none_set only_passed
  ∧ IsValid only_passed = true
  ∧ IsValid none_set = true.
Proof.
  cbv zeta. split; [|split; [reflexivity|]].
  - repeat split; auto.
  - apply (IsValid_cleared _ only_passed); [repeat split; auto | reflexivity].
Defined.


Lemma Find_calls_nothing_iff_invalid_witness :
  let run := Find (tr := scripted) () (Some passed_and_linux) in
  events_of run [answers_jobs_3_1] = []
  ∧ (events_of run [answers_jobs_3_1] = []
     ↔ ∃ jfo, Some passed_and_linux = Some jfo ∧ IsValid jfo = false).
Proof.
  split; [reflexivity|].
  apply (Find_calls_nothing_iff_invalid (tr := scripted) () (Some passed_and_linux)
           [answers_jobs_3_1]
           (result_of (Find (tr := scripted) () (Some passed_and_linux)) [answers_jobs_3_1])
           _ [answers_jobs_3_1]).
  reflexivity.
Defined.


Lemma requests_carry_no_body_witness :
  let run := perform (tr := scripted) () (op_Cancel 7) in
  let req := Some {| Method := "POST"; URL := "/jobs/7/cancel" |} in
  ev_NewRequest "POST" "/jobs/7/cancel" None None req None ∈ events_of run [answers_202]
  ∧ (None : option string) = None
  ∧ (None : option (gmap string string)) = None
  ∧ "POST" = method_of (op_Cancel 7).
Proof.
  cbv zeta. split; [right; left|].
  apply (requests_carry_no_body (tr := scripted) () (op_Cancel 7) [answers_202]
           (Some accepted_202, None)
           (events_of (perform (tr := scripted) () (op_Cancel 7)) [answers_202]) []
           "POST" "/jobs/7/cancel" None None
           (Some {| Method := "POST"; URL := "/jobs/7/cancel" |}) None).
  - reflexivity.
  - right. left.
Defined.


Lemma round_trip_count_witness :
  let run := perform (tr := scripted) () (op_ListFromBuild 9) in
  (length (round_trips (events_of run [answers_build_9])) ≤ 1)%nat
  ∧ (length (round_trips (events_of run [answers_build_9])) = 1
     ↔ events_of run [answers_build_9] ≠ [] ∧ constructed (events_of run [answers_build_9])).
Proof.
  apply (round_trip_count (tr := scripted) () (op_ListFromBuild 9) [answers_build_9]
           (result_of (perform (tr := scripted) () (op_ListFromBuild 9)) [answers_build_9])
           _ []).
  reflexivity.
Defined.

Lemma same_path_same_endpoint_witness :
  let run := perform (tr := scripted) () (op_Get 2) in
  path_built (events_of run [answers_job_2]) = Some "/jobs/2"
  ∧ path_built (events_of run []) = Some "/jobs/2"
  ∧ same_endpoint (op_Get 2) (op_Get 2).
Proof.
  split; [reflexivity|]. split; [reflexivity|].
  apply (same_path_same_endpoint (tr := scripted) () () (op_Get 2) (op_Get 2)
           [answers_job_2] []
           (result_of (perform (tr := scripted) () (op_Get 2)) [answers_job_2])
           (result_of (perform (tr := scripted) () (op_Get 2)) [])
           (events_of (perform (tr := scripted) () (op_Get 2)) [answers_job_2])
           (events_of (perform (tr := scripted) () (op_Get 2)) [])
           [] [] "/jobs/2"); reflexivity.
Defined.

Lemma Find_rejects_empty_Ids_beside_a_field_witness :
  Ids empty_Ids_and_passed = Some []
  ∧ State empty_Ids_and_passed ≠ ""
  ∧ IsValid empty_Ids_and_passed = false
  ∧ ∃ e, Find (tr := scripted) () (Some empty_Ids_and_passed) [answers_jobs_3_1]
         = ((None, None, Some e), [], [answers_jobs_3_1]).
Proof.
  split; [reflexivity|]. split; [discriminate|].
  apply (Find_rejects_empty_Ids_beside_a_field (tr := scripted) ()
           empty_Ids_and_passed [answers_jobs_3_1]).
  - reflexivity.
  - right. left. discriminate.
Defined.


(** ** The integration tests *)

Section RequestTestsTheory.
Context `{rs : RequestsService}.

Ltac run_test :=
  unfold TestRequestService_CreateAndFindById, TestRequestService_CreateAndFindBySlug,
    accepted, found, in_full, test_options, StatusAccepted, StatusOK in *;
  cbv zeta;
  repeat match goal with
  | |- context [CreateByRepoId ?r ?o] =>
      destruct (CreateByRepoId r o) as [[[?|] [[? ?]|]] [?|]] eqn:?
  | |- context [CreateByRepoSlug ?r ?o] =>
      destruct (CreateByRepoSlug r o) as [[[?|] [[? ?]|]] [?|]] eqn:?
  | |- context [FindByRepoId ?r ?i] =>
      destruct (FindByRepoId r i) as [[[?|] [[? ?]|]] [?|]] eqn:?
  | |- context [FindByRepoSlug ?r ?i] =>
      destruct (FindByRepoSlug r i) as [[[?|] [[? ?]|]] [?|]] eqn:?
  | |- context [(?a =? ?b)%Z] => destruct (Z.eqb_spec a b)
  | |- context [(?a =? ?b)%N] => destruct (N.eqb_spec a b)
  | _ => progress cbn [fst snd negb StatusCode Status]
  end.

(** Two equations on the answer to one call are put together. *)
Ltac same_answers :=
  repeat match goal with
  | H1 : ?x = (_, _, _), H2 : ?x = (_, _, _) |- _ => rewrite H1 in H2; simplify_eq/=
  end.

(** X12. Each of the two tests passes exactly when the creation was
    accepted (a request, status 202, nil error) and the lookup of the
    [Id] of the created request, in the same repository, found a
    request of that [Id] (status 200, nil error). *)
Theorem request_tests_pass_iff :
  (TestRequestService_CreateAndFindById.1 = passed
   ↔ ∃ created, accepted (CreateByRepoId integrationRepoId test_options) created
       ∧ found (FindByRepoId integrationRepoId (Request_Id created)) created)
  ∧ (TestRequestService_CreateAndFindBySlug.1 = passed
     ↔ ∃ created, accepted (CreateByRepoSlug integrationRepo test_options) created
         ∧ found (FindByRepoSlug integrationRepo (Request_Id created)) created).
Proof.
  split; run_test; (split; [try discriminate; eauto 10 | ]);
    intros (created & (res1 & Hc & Hs1) & (request & res2 & Hf & Hs2 & Hid));
    same_answers; try congruence.
Qed.

(** X13. A test looks a request up only after its creation was
    accepted, in the repository of the creation and under the [Id] of
    the request created; a creation that failed or was not answered
    by 202 is followed by no lookup. *)
Theorem request_tests_look_up_the_created_request :
  (∀ repo id, call_FindByRepoId repo id ∈ TestRequestService_CreateAndFindById.2 →
     repo = integrationRepoId
     ∧ ∃ created, accepted (CreateByRepoId integrationRepoId test_options) created
         ∧ id = Request_Id created)
  ∧ (∀ slug id, call_FindByRepoSlug slug id ∈ TestRequestService_CreateAndFindBySlug.2 →
       slug = integrationRepo
       ∧ ∃ created, accepted (CreateByRepoSlug integrationRepo test_options) created
           ∧ id = Request_Id created).
Proof.
  split; run_test; intros repo id Hin; cbn in Hin;
    repeat (apply elem_of_cons in Hin as [Hin|Hin]; [try discriminate Hin|]);
    try (apply elem_of_nil in Hin; contradiction);
    injection Hin as -> ->; (split; [reflexivity|]); eauto 10.
Qed.

(** X14. The tests follow the pointers they get without a nil check:
    when the service answers in full (a response and a record
    whenever the error is nil) no test follows a nil pointer, and a
    creation answered with neither a response nor an error makes the
    test follow one. *)
Theorem request_tests_nil_pointers :
  (in_full (CreateByRepoId integrationRepoId test_options) →
   (∀ id, in_full (FindByRepoId integrationRepoId id)) →
   TestRequestService_CreateAndFindById.1 ≠ nil_dereference)
  ∧ (in_full (CreateByRepoSlug integrationRepo test_options) →
     (∀ id, in_full (FindByRepoSlug integrationRepo id)) →
     TestRequestService_CreateAndFindBySlug.1 ≠ nil_dereference)
  ∧ (∀ created, CreateByRepoId integrationRepoId test_options = (created, None, None) →
       TestRequestService_CreateAndFindById.1 = nil_dereference)
  ∧ (∀ created, CreateByRepoSlug integrationRepo test_options = (created, None, None) →
       TestRequestService_CreateAndFindBySlug.1 = nil_dereference).
Proof.
  split; [|split; [|split]].
  - run_test; intros Hc Hf; try discriminate;
      try (destruct (Hc eq_refl) as [[? [=]] [? ?]]; fail);
      try (destruct (Hc eq_refl) as [[? ?] [? [=]]]; fail);
      match goal with
      | H : FindByRepoId _ ?i = _ |- _ =>
          specialize (Hf i); rewrite H in Hf; cbn in Hf;
          destruct (Hf eq_refl) as [[? ?] [? ?]]; discriminate
      end.
  - run_test; intros Hc Hf; try discriminate;
      try (destruct (Hc eq_refl) as [[? [=]] [? ?]]; fail);
      try (destruct (Hc eq_refl) as [[? ?] [? [=]]]; fail);
      match goal with
      | H : FindByRepoSlug _ ?i = _ |- _ =>
          specialize (Hf i); rewrite H in Hf; cbn in Hf;
          destruct (Hf eq_refl) as [[? ?] [? ?]]; discriminate
      end.
  - intros created Hc. unfold TestRequestService_CreateAndFindById.
    fold test_options. rewrite Hc. reflexivity.
  - intros created Hc. unfold TestRequestService_CreateAndFindBySlug.
    fold test_options. rewrite Hc. reflexivity.
Qed.

End RequestTestsTheory.

(** ** The tests on the two services *)

Section OnTheObligingService.
#[local] Existing Instance obliging_service.

Lemma request_tests_pass_iff_witness :
  TestRequestService_CreateAndFindById.1 = passed
  ∧ ∃ created,
      accepted (CreateByRepoId integrationRepoId test_options) created
      ∧ found (FindByRepoId integrationRepoId (Request_Id created)) created.
Proof.
  split; [reflexivity|].
  apply (proj1 (proj1 request_tests_pass_iff)).
  reflexivity.
Defined.

Lemma request_tests_look_up_the_created_request_witness :
  TestRequestService_CreateAndFindBySlug.2
  = [call_CreateByRepoSlug "octo/demo" test_options; call_FindByRepoSlug "octo/demo" 41]
  ∧ ∃ created,
      accepted (CreateByRepoSlug integrationRepo test_options) created
      ∧ 41%N = Request_Id created.
Proof.
  split; [reflexivity|].
  apply (proj2 request_tests_look_up_the_created_request "octo/demo" 41%N).
  right. left.
Defined.

End OnTheObligingService.

Lemma request_tests_nil_pointers_witness :
  (TestRequestService_CreateAndFindById (rs := silent_service)).1 = nil_dereference
  ∧ (TestRequestService_CreateAndFindById (rs := obliging_service)).1 ≠ nil_dereference.
Proof.
  split.
  - apply (proj1 (proj2 (proj2 (request_tests_nil_pointers (rs := silent_service)))) None).
    reflexivity.
  - apply (proj1 (request_tests_nil_pointers (rs := obliging_service))).
    + intros _. split; eexists; reflexivity.
    + intros id _. split; eexists; reflexivity.
Defined.
